(** * Saving records with objects: [values], [keys] and [save]

    A shallow embedding of the notebook's three functions and of the
    Python and database-driver behaviour they rest on.

    - A Python [str] is a [string] read as the sequence of its code points,
      each below 256.
    - An object is what the three functions can observe of it: what
      [obj.__table__] returns (a name), what [obj.columns] returns (a list
      of names) and the instance dictionary [obj.__dict__].  In the material
      [__table__] and [columns] are set on the class and every other
      attribute on the instance.
    - The functions run in a small state-and-exception monad.  The state is
      the object the parameter [obj] refers to together with the record of
      the calls received so far by the cursor and the connection. *)

From Stdlib Require Import Ascii String.
From stdpp Require Import gmap strings list pretty.

(** ** Python values *)

Unset Elimination Schemes.
Inductive pyval : Type :=
  | PNone
  | PBool (b : bool)
  | PInt (z : Z)
  | PStr (s : string)
  | PList (l : list pyval).
Set Elimination Schemes.

Module Builtins.

Definition hex_digit (n : N) : ascii :=
  match n with
  | 0 => "0" | 1 => "1" | 2 => "2" | 3 => "3" | 4 => "4" | 5 => "5"
  | 6 => "6" | 7 => "7" | 8 => "8" | 9 => "9" | 10 => "a" | 11 => "b"
  | 12 => "c" | 13 => "d" | 14 => "e" | _ => "f"
  end%N%char.

(** [\xNN], two lower-case hexadecimal digits. *)
Definition hex_escape (c : ascii) : string :=
  let n := N_of_ascii c in
  String "\" (String "x" (String (hex_digit (n / 16)) (String (hex_digit (n mod 16)) ""))).

(** [str.isprintable] on one code point below 256: the control characters,
    DEL, the C1 controls, the no-break space and the soft hyphen are not
    printable. *)
Definition printable (c : ascii) : bool :=
  let n := N_of_ascii c in
  ((32 <=? n) && (n <? 127) || (161 <=? n) && negb (n =? 173))%N.

Fixpoint contains (q : ascii) (s : string) : bool :=
  match s with
  | EmptyString => false
  | String c s' => if decide (c = q) then true else contains q s'
  end.

(** [repr] of a [str] prefers single quotes and takes double quotes when
    the text has a single quote and no double quote. *)
Definition double_quote : ascii := "034"%char.

Definition quote_for (s : string) : ascii :=
  if contains "'" s && negb (contains double_quote s) then double_quote else "'"%char.

Definition escape_char (q c : ascii) : string :=
  if decide (c = q) then String "\" (String c "")
  else if decide (c = "\"%char) then "\\"
  else if decide (c = "009"%char) then "\t"
  else if decide (c = "010"%char) then "\n"
  else if decide (c = "013"%char) then "\r"
  else if printable c then String c ""
  else hex_escape c.

Fixpoint escape (q : ascii) (s : string) : string :=
  match s with
  | EmptyString => ""
  | String c s' => escape_char q c +:+ escape q s'
  end.

Definition repr_str (s : string) : string :=
  let q := quote_for s in
  String q (escape q s) +:+ String q "".

(** [', '.join(xs)] and its like. *)
Definition join (sep : string) (xs : list string) : string :=
  String.concat sep xs.

(** [repr(v)]. *)
Fixpoint repr (v : pyval) : string :=
  match v with
  | PNone => "None"
  | PBool true => "True"
  | PBool false => "False"
  | PInt z => pretty z
  | PStr s => repr_str s
  | PList l => "[" +:+ join ", " (map repr l) +:+ "]"
  end.

(** [str(v)], which is also what a replacement field [{v}] of an f-string
    inserts: a [str] stands for itself, everything else here for its
    [repr]. *)
Definition str (v : pyval) : string :=
  match v with
  | PStr s => s
  | _ => repr v
  end.

(** [n * [x]]. *)
Definition list_mul {A} (n : nat) (x : A) : list A := replicate n x.

(** [list(xs)] of a list: a new list with the same items. *)
Definition list_copy {A} (xs : list A) : list A := xs.

End Builtins.

(** ** Objects, driver calls and the monad *)

Record pyobj : Type := PyObj {
  __table__ : string;
  columns : list string;
  __dict__ : gmap string pyval
}.

Inductive exn : Type :=
  | KeyError (key : string)
  | DriverError (msg : string).

(** What a cursor or a connection has been asked to do.  [Rollback] is the
    call a recovery path would make; none of the functions below makes it. *)
Inductive call : Type :=
  | Execute (stmt : string) (params : list pyval)
  | Commit
  | Rollback.

Record world : Type := World {
  obj : pyobj;
  calls : list call
}.

Inductive outcome (A : Type) : Type :=
  | Ok (a : A)
  | Raise (e : exn).
Arguments Ok {A} a.
Arguments Raise {A} e.

Definition M (A : Type) : Type := world -> outcome A * world.

Definition ret {A} (a : A) : M A := fun w => (Ok a, w).

Definition raise {A} (e : exn) : M A := fun w => (Raise e, w).

Definition bind {A B} (m : M A) (k : A -> M B) : M B :=
  fun w =>
    match m w with
    | (Ok a, w') => k a w'
    | (Raise e, w') => (Raise e, w')
    end.

Notation "x <- m ;; k" := (bind m (fun x => k))
  (at level 100, m at next level, right associativity,
   format "'[v' x  <-  m  ;; '/' k ']'").
Notation "m ;;; k" := (bind m (fun _ => k))
  (at level 100, right associativity).

(** The database driver, as far as [save] meets it: a cursor decides, from
    the calls made so far and its arguments, whether [execute] raises; a
    connection does the same for [commit].  Both record the call. *)
Record cursor : Type := Cursor {
  execute_raises : list call -> string -> list pyval -> option exn
}.

Record connection : Type := Connection {
  commit_raises : list call -> option exn
}.

Definition record_call (c : call) : M unit :=
  fun w => (Ok tt, World (obj w) (calls w ++ [c])).

Definition calls_so_far : M (list call) := fun w => (Ok (calls w), w).

(** [cursor.execute(stmt, params)] *)
Definition cursor_execute (cur : cursor) (stmt : string) (params : list pyval) : M unit :=
  before <- calls_so_far ;;
  record_call (Execute stmt params) ;;;
  match execute_raises cur before stmt params with
  | Some e => raise e
  | None => ret tt
  end.

(** [conn.commit()] *)
Definition conn_commit (conn : connection) : M unit :=
  before <- calls_so_far ;;
  record_call Commit ;;;
  match commit_raises conn before with
  | Some e => raise e
  | None => ret tt
  end.

(** Attribute reads on the object [obj] refers to. *)
Definition get_dict : M (gmap string pyval) := fun w => (Ok (__dict__ (obj w)), w).
Definition get_columns : M (list string) := fun w => (Ok (columns (obj w)), w).
Definition get_table : M string := fun w => (Ok (__table__ (obj w)), w).

(** Names under which an assignment [obj.name = v] does something else than
    store [v] in the instance dictionary and leave the two other reads as
    they were: an instance attribute [columns] or [__table__] hides the
    class attribute of that name, and [__dict__], [__class__] and
    [__weakref__] are handled by descriptors of the class. *)
Definition reserved_names : list string :=
  ["columns"; "__table__"; "__dict__"; "__class__"; "__weakref__"].

Definition plain_name (name : string) : bool :=
  bool_decide (name ∉ reserved_names).

(** An attribute name that is not reserved. *)
Record attr : Type := Attr {
  attr_name : string;
  attr_plain : plain_name attr_name = true
}.

(** [obj.name = v] for a name that is not reserved: the value is stored in
    the instance dictionary under that name; [obj.columns] and
    [obj.__table__] still find the attributes they found before. *)
Definition setattr (name : attr) (v : pyval) : M unit :=
  fun w =>
    let o := obj w in
    (Ok tt,
     World (PyObj (__table__ o) (columns o) (<[attr_name name := v]> (__dict__ o)))
       (calls w)).

(** [attr in d.keys()] *)
Definition dict_contains (d : gmap string pyval) (attr : string) : bool :=
  bool_decide (is_Some (d !! attr)).

(** [d[attr]] *)
Definition dict_getitem (d : gmap string pyval) (attr : string) : M pyval :=
  match d !! attr with
  | Some v => ret v
  | None => raise (KeyError attr)
  end.

(** [[body x for x in xs if cond x]] *)
Fixpoint comprehension {A B} (body : A -> M B) (cond : A -> bool) (xs : list A) : M (list B) :=
  match xs with
  | [] => ret []
  | x :: xs' =>
      if cond x then
        y <- body x ;;
        ys <- comprehension body cond xs' ;;
        ret (y :: ys)
      else comprehension body cond xs'
  end.

(** ** The notebook's functions (the summary cell) *)

Definition values : M (list pyval) :=
  obj_attrs <- get_dict ;;
  cols <- get_columns ;;
  comprehension (fun attr => dict_getitem obj_attrs attr)
                (fun attr => dict_contains obj_attrs attr) cols.

Definition keys : M (list string) :=
  obj_attrs <- get_dict ;;
  cols <- get_columns ;;
  comprehension (fun attr => ret attr)
                (fun attr => dict_contains obj_attrs attr) cols.

Definition save (conn : connection) (cur : cursor) : M pyval :=
  vs <- values ;;
  let s_str := Builtins.join ", " (Builtins.list_mul (length vs) "%s") in
  table <- get_table ;;
  ks <- keys ;;
  let insert_str :=
    "INSERT INTO " +:+ Builtins.str (PStr table) +:+ " (" +:+ Builtins.str (PList (PStr <$> ks))
      +:+ ") VALUES (" +:+ s_str +:+ ");" in
  params <- values ;;
  cursor_execute cur insert_str params ;;;
  conn_commit conn ;;;
  ret PNone.

(** The earlier cell in which [keys] joins the selected names. *)
Module Joined.

Definition keys : M string :=
  obj_attrs <- get_dict ;;
  cols <- get_columns ;;
  selected <- comprehension (fun attr => ret attr)
                (fun attr => dict_contains obj_attrs attr) cols ;;
  ret (Builtins.join ", " selected).

(** [save] as first given, in the cell that follows this [keys]. *)
Definition save (conn : connection) (cur : cursor) : M pyval :=
  vs <- values ;;
  let s_str := Builtins.join ", " (Builtins.list_mul (length vs) "%s") in
  table <- get_table ;;
  ks <- keys ;;
  let insert_str :=
    "INSERT INTO " +:+ Builtins.str (PStr table) +:+ " (" +:+ Builtins.str (PStr ks)
      +:+ ") VALUES (" +:+ s_str +:+ ");" in
  vs' <- values ;;
  let params := Builtins.list_copy vs' in
  cursor_execute cur insert_str params ;;;
  conn_commit conn ;;;
  ret PNone.

End Joined.

(** ** The running example *)

(** [class User] with no instance attribute set yet. *)
Definition User : pyobj := PyObj "users" ["id"; "name"; "birthday"] ∅.

Definition always_ok_cursor : cursor := Cursor (fun _ _ _ => None).
Definition always_ok_conn : connection := Connection (fun _ => None).

Definition id_attr : attr := Attr "id" eq_refl.
Definition name_attr : attr := Attr "name" eq_refl.
Definition birthday_attr : attr := Attr "birthday" eq_refl.

(** [user = User(); user.name = 'bob'; user.birthday = '3/5/1997'] *)
Definition make_user : M unit :=
  setattr name_attr (PStr "bob") ;;;
  setattr birthday_attr (PStr "3/5/1997").

Definition user_world : world := snd (make_user (World User [])).

(** The same instance with every declared column set. *)
Definition make_full_user : M unit :=
  setattr id_attr (PInt 7) ;;;
  make_user.

Definition full_user_world : world := snd (make_full_user (World User [])).

(** ** Vocabulary of the statements *)

(** The object with the attribute [name] left out of its dictionary. *)
Definition omit (name : string) (w : world) : world :=
  let o := obj w in
  World (PyObj (__table__ o) (columns o) (delete name (__dict__ o))) (calls w).

(** The declared columns that are set on the object, in declared order. *)
Definition present_columns (o : pyobj) : list string :=
  filter (fun k => is_Some (__dict__ o !! k)) (columns o).

(** The values those columns are set to. *)
Definition present_values (o : pyobj) : list pyval :=
  omap (fun k => __dict__ o !! k) (columns o).

(** The text the summary cell's [save] builds, as it is computed there. *)
Definition built_text (o : pyobj) : string :=
  "INSERT INTO " +:+ __table__ o +:+ " ([" +:+
    Builtins.join ", " (Builtins.repr_str <$> present_columns o) +:+
    "]) VALUES (" +:+
    Builtins.join ", " (replicate (length (present_values o)) "%s") +:+ ");".

(** The statement text the specification describes: the selected names
    joined by a comma and a space between the parentheses. *)
Definition intended_text (o : pyobj) : string :=
  "INSERT INTO " +:+ __table__ o +:+ " (" +:+
    Builtins.join ", " (present_columns o) +:+
    ") VALUES (" +:+
    Builtins.join ", " (replicate (length (present_values o)) "%s") +:+ ");".

(** The world after [save] has called [execute]. *)
Definition after_execute (w : world) : world :=
  World (obj w) (calls w ++ [Execute (built_text (obj w)) (present_values (obj w))]).

(** The world after the [commit] that follows. *)
Definition after_commit (w : world) : world :=
  World (obj w) (calls (after_execute w) ++ [Commit]).

(** The same object with another table name, seen by a driver with another
    history. *)
Definition elsewhere (table : string) (history : list call) (w : world) : world :=
  World (PyObj table (columns (obj w)) (__dict__ (obj w))) history.

(** The number of times the character [c] occurs in [s]. *)
Fixpoint count_char (c : ascii) (s : string) : nat :=
  match s with
  | EmptyString => 0
  | String x s' => (if decide (x = c) then 1 else 0) + count_char c s'
  end.

Definition percent : ascii := "%"%char.

(** ** What the functions compute *)

Section Runs.

Implicit Types (w : world) (d : gmap string pyval) (xs : list string).

Lemma comprehension_names d xs w :
  comprehension (fun attr => ret attr) (fun attr => dict_contains d attr) xs w
  = (Ok (filter (fun k => is_Some (d !! k)) xs), w).
Proof.
  induction xs as [|x xs IH]; [done|].
  cbn [comprehension]. unfold dict_contains at 1.
  destruct (decide (is_Some (d !! x))) as [Hx|Hx].
  - rewrite bool_decide_eq_true_2 by done.
    rewrite filter_cons_True by done.
    unfold bind at 1 2, ret at 1. by rewrite IH.
  - rewrite bool_decide_eq_false_2 by done.
    by rewrite filter_cons_False.
Qed.

Lemma comprehension_items d xs w :
  comprehension (fun attr => dict_getitem d attr) (fun attr => dict_contains d attr) xs w
  = (Ok (omap (fun k => d !! k) xs), w).
Proof.
  induction xs as [|x xs IH]; [done|].
  cbn [comprehension omap list_omap]. unfold dict_contains at 1, dict_getitem at 1.
  destruct (d !! x) as [v|] eqn:Hx.
  - rewrite bool_decide_eq_true_2 by eauto.
    unfold bind at 1 2, ret at 1. by rewrite IH.
  - rewrite bool_decide_eq_false_2; [done|]. by intros [? ?].
Qed.

Lemma keys_run w : keys w = (Ok (present_columns (obj w)), w).
Proof. unfold keys, bind, get_dict, get_columns. apply comprehension_names. Qed.

Lemma values_run w : values w = (Ok (present_values (obj w)), w).
Proof. unfold values, bind, get_dict, get_columns. apply comprehension_items. Qed.

Lemma joined_keys_run w :
  Joined.keys w = (Ok (Builtins.join ", " (present_columns (obj w))), w).
Proof.
  unfold Joined.keys, bind, get_dict, get_columns.
  by rewrite comprehension_names.
Qed.

(** Names and values stay side by side. *)
Lemma present_aligned (o : pyobj) :
  Forall2 (fun k v => __dict__ o !! k = Some v) (present_columns o) (present_values o).
Proof.
  unfold present_columns, present_values.
  induction (columns o) as [|x xs IH]; [constructor|].
  cbn [omap list_omap]. destruct (__dict__ o !! x) as [v|] eqn:Hx.
  - rewrite filter_cons_True by (rewrite Hx; eauto). by constructor.
  - rewrite filter_cons_False; [done|]. rewrite Hx. by intros [? ?].
Qed.

Lemma present_zip (o : pyobj) :
  zip (present_columns o) (present_values o)
  = omap (fun k => (k,.) <$> __dict__ o !! k) (columns o).
Proof.
  unfold present_columns, present_values.
  induction (columns o) as [|x xs IH]; [done|].
  cbn [omap list_omap]. destruct (__dict__ o !! x) as [v|] eqn:Hx.
  - rewrite filter_cons_True by (rewrite Hx; eauto). cbn. by rewrite IH.
  - rewrite filter_cons_False; [done|]. rewrite Hx. by intros [? ?].
Qed.

End Runs.

Section SaveRuns.

Implicit Types (w : world) (conn : connection) (cur : cursor).

Lemma append_assoc (a b c : string) : (a +:+ b) +:+ c = a +:+ (b +:+ c).
Proof.
  induction a as [|x a IH]; [done|].
  change (String x ((a +:+ b) +:+ c) = String x (a +:+ (b +:+ c))).
  by rewrite IH.
Qed.

Lemma append_cons (x : ascii) (a b : string) : String x a +:+ b = String x (a +:+ b).
Proof. done. Qed.

Lemma append_empty (b : string) : "" +:+ b = b.
Proof. done. Qed.

Lemma prefix_append (a b : string) : String.prefix a (a +:+ b) = true.
Proof.
  induction a as [|x a IH]; [by destruct b|].
  rewrite append_cons. cbn [String.prefix].
  by destruct (ascii_dec x x).
Qed.

(** The text an f-string gives for a list of names. *)
Lemma str_of_names (ks : list string) :
  Builtins.str (PList (PStr <$> ks))
  = "[" +:+ Builtins.join ", " (Builtins.repr_str <$> ks) +:+ "]".
Proof.
  cbn [Builtins.str Builtins.repr].
  replace (map Builtins.repr (PStr <$> ks)) with (Builtins.repr_str <$> ks); [done|].
  induction ks as [|k ks IH]; [done|]. cbn [fmap list_fmap map Builtins.repr].
  f_equal. exact IH.
Qed.

Lemma save_run conn cur w :
  save conn cur w =
    match execute_raises cur (calls w) (built_text (obj w)) (present_values (obj w)) with
    | Some e => (Raise e, after_execute w)
    | None =>
        match commit_raises conn (calls (after_execute w)) with
        | Some e => (Raise e, after_commit w)
        | None => (Ok PNone, after_commit w)
        end
    end.
Proof.
  unfold save. unfold bind at 1. rewrite values_run.
  unfold bind at 1, get_table. unfold bind at 1. rewrite keys_run.
  unfold bind at 1. rewrite values_run.
  assert (Htext :
    "INSERT INTO " +:+ Builtins.str (PStr (__table__ (obj w))) +:+ " (" +:+
      Builtins.str (PList (PStr <$> present_columns (obj w))) +:+ ") VALUES (" +:+
      Builtins.join ", " (Builtins.list_mul (length (present_values (obj w))) "%s") +:+ ");"
    = built_text (obj w)).
  { rewrite str_of_names. unfold built_text, Builtins.list_mul. cbn [Builtins.str].
    by rewrite !append_assoc, !append_cons, !append_empty. }
  rewrite Htext.
  unfold cursor_execute, conn_commit, bind, calls_so_far, record_call, raise, ret,
    after_commit, after_execute.
  cbn [obj calls].
  destruct (execute_raises cur _ _ _); [done|].
  by destruct (commit_raises conn _).
Qed.

End SaveRuns.

(** ** Selection lemmas *)

Section Selection.

Implicit Types (o : pyobj) (w : world) (d : gmap string pyval) (xs : list string).

Lemma present_columns_sublist o : present_columns o `sublist_of` columns o.
Proof. apply sublist_filter. Qed.

Lemma elem_of_present_columns o k :
  k ∈ present_columns o ↔ k ∈ columns o ∧ is_Some (__dict__ o !! k).
Proof. unfold present_columns. rewrite list_elem_of_filter. tauto. Qed.

Lemma present_lengths o : length (present_columns o) = length (present_values o).
Proof. eapply Forall2_length, present_aligned. Qed.

Lemma present_all_set o :
  Forall (fun c => is_Some (__dict__ o !! c)) (columns o) →
  present_columns o = columns o.
Proof.
  unfold present_columns. induction 1 as [|x xs Hx _ IH]; [done|].
  rewrite filter_cons_True by done. by rewrite IH.
Qed.

Lemma present_none_set o :
  Forall (fun c => __dict__ o !! c = None) (columns o) →
  present_columns o = [] ∧ present_values o = [].
Proof.
  unfold present_columns, present_values.
  induction 1 as [|x xs Hx _ [IHk IHv]]; [done|].
  cbn [omap list_omap]. rewrite Hx, IHv.
  rewrite filter_cons_False; [done|]. rewrite Hx. by intros [? ?].
Qed.

(** Selecting from [xs] under a dictionary without [c]. *)
Lemma filter_delete d c xs :
  filter (fun k => is_Some (delete c d !! k)) xs
  = filter (fun k => k ≠ c) (filter (fun k => is_Some (d !! k)) xs).
Proof.
  induction xs as [|x xs IH]; [done|].
  destruct (decide (x = c)) as [->|Hne].
  - rewrite (filter_cons_False _ c); [|rewrite lookup_delete_eq; by intros [? ?]].
    rewrite IH. destruct (decide (is_Some (d !! c))).
    + rewrite (filter_cons_True (fun k => is_Some (d !! k))) by done.
      by rewrite filter_cons_False by naive_solver.
    + by rewrite (filter_cons_False (fun k => is_Some (d !! k))) by done.
  - destruct (decide (is_Some (d !! x))).
    + rewrite (filter_cons_True _ x); [|by rewrite lookup_delete_ne].
      rewrite (filter_cons_True (fun k => is_Some (d !! k))) by done.
      rewrite filter_cons_True by done. by rewrite IH.
    + rewrite (filter_cons_False _ x); [|by rewrite lookup_delete_ne].
      by rewrite (filter_cons_False (fun k => is_Some (d !! k))) by done.
Qed.

Lemma pairs_delete d c xs :
  omap (fun k => (k,.) <$> delete c d !! k) xs
  = filter (fun kv => kv.1 ≠ c) (omap (fun k => (k,.) <$> d !! k) xs).
Proof.
  induction xs as [|x xs IH]; [done|].
  cbn [omap list_omap].
  destruct (decide (x = c)) as [->|Hne].
  - rewrite lookup_delete_eq. cbn [fmap option_fmap option_map]. rewrite IH.
    destruct (d !! c); cbn [fmap option_fmap option_map]; [|done].
    by rewrite filter_cons_False by naive_solver.
  - rewrite lookup_delete_ne by done. rewrite IH.
    destruct (d !! x); cbn [fmap option_fmap option_map]; [|done].
    by rewrite filter_cons_True by done.
Qed.

(** An attribute outside the declared columns does not affect the
    selection. *)
Lemma present_columns_insert o name v :
  name ∉ columns o →
  present_columns (PyObj (__table__ o) (columns o) (<[name := v]> (__dict__ o)))
  = present_columns o.
Proof.
  unfold present_columns. cbn [columns __dict__].
  induction (columns o) as [|x xs IH]; [done|].
  intros Hn. apply not_elem_of_cons in Hn as [Hne Hn].
  destruct (decide (is_Some (__dict__ o !! x))).
  - rewrite !filter_cons_True; [|done|by rewrite lookup_insert_ne]. by rewrite IH.
  - rewrite !filter_cons_False; [|done|by rewrite lookup_insert_ne]. by rewrite IH.
Qed.

Lemma present_values_insert o name v :
  name ∉ columns o →
  present_values (PyObj (__table__ o) (columns o) (<[name := v]> (__dict__ o)))
  = present_values o.
Proof.
  unfold present_values. cbn [columns __dict__].
  induction (columns o) as [|x xs IH]; [done|].
  intros Hn. apply not_elem_of_cons in Hn as [Hne Hn].
  cbn [omap list_omap]. rewrite lookup_insert_ne by done. by rewrite IH.
Qed.

End Selection.

(** ** Names and values *)

(** C3. When every declared column has an attribute on the object, [keys]
    and [values] return lists of the same length, [keys] returns every
    declared column, and the value at each position is the attribute value
    of the name at that position. *)
Theorem keys_values_side_by_side (w : world) :
  Forall (fun c => is_Some (__dict__ (obj w) !! c)) (columns (obj w)) →
  ∃ ks vs,
    keys w = (Ok ks, w) ∧ values w = (Ok vs, w) ∧
    ks = columns (obj w) ∧
    length ks = length vs ∧
    ∀ i k, ks !! i = Some k →
      ∃ v, vs !! i = Some v ∧ __dict__ (obj w) !! k = Some v.
Proof.
  intros Hall. exists (present_columns (obj w)), (present_values (obj w)).
  split; [apply keys_run|]. split; [apply values_run|].
  split; [by apply present_all_set|]. split; [apply present_lengths|].
  intros i k Hk.
  destruct (Forall2_lookup_l _ _ _ _ _ (present_aligned (obj w)) Hk) as (v & Hv & Hd).
  eauto.
Qed.

(** The instance with [id], [name] and [birthday] all set. *)
Lemma keys_values_side_by_side_full_user :
  ∃ ks vs,
    keys full_user_world = (Ok ks, full_user_world) ∧
    values full_user_world = (Ok vs, full_user_world) ∧
    ks = columns (obj full_user_world) ∧
    length ks = length vs ∧
    ∀ i k, ks !! i = Some k →
      ∃ v, vs !! i = Some v ∧ __dict__ (obj full_user_world) !! k = Some v.
Proof.
  apply (keys_values_side_by_side full_user_world).
  vm_compute. repeat constructor; eexists; reflexivity.
Defined.

(** C4. Leaving the attribute of a declared column [c] out of the object
    removes the entries for [c], and nothing else, from what [keys] and
    [values] return: the remaining names keep their order, each still paired
    with the value it had. *)
Theorem omitting_an_attribute (w : world) (c : string) :
  c ∈ columns (obj w) →
  ∃ ks vs ks' vs',
    keys w = (Ok ks, w) ∧ values w = (Ok vs, w) ∧
    keys (omit c w) = (Ok ks', omit c w) ∧
    values (omit c w) = (Ok vs', omit c w) ∧
    ks' = filter (fun k => k ≠ c) ks ∧
    zip ks' vs' = filter (fun kv => kv.1 ≠ c) (zip ks vs) ∧
    length ks' = length vs' ∧
    (c ∉ ks') ∧
    (is_Some (__dict__ (obj w) !! c) → c ∈ ks) ∧
    Forall2 (fun k v => __dict__ (obj w) !! k = Some v) ks' vs'.
Proof.
  intros Hc.
  exists (present_columns (obj w)), (present_values (obj w)),
    (present_columns (obj (omit c w))), (present_values (obj (omit c w))).
  split; [apply keys_run|]. split; [apply values_run|].
  split; [apply keys_run|]. split; [apply values_run|].
  assert (Hks : present_columns (obj (omit c w))
                = filter (fun k => k ≠ c) (present_columns (obj w))).
  { unfold present_columns, omit. cbn [obj columns __dict__]. apply filter_delete. }
  split; [exact Hks|].
  split.
  { rewrite !present_zip. unfold omit. cbn [obj columns __dict__]. apply pairs_delete. }
  split; [apply present_lengths|].
  split.
  { rewrite Hks. rewrite list_elem_of_filter. tauto. }
  split.
  { intros Hset. by apply elem_of_present_columns. }
  pose proof (present_aligned (obj (omit c w))) as Hal.
  eapply Forall2_impl; [exact Hal|].
  intros k v. unfold omit. cbn [obj __dict__].
  intros Hk. apply lookup_delete_Some in Hk. tauto.
Qed.

(** The running example with [name] left out. *)
Lemma omitting_an_attribute_user_name :
  ∃ ks vs ks' vs',
    keys user_world = (Ok ks, user_world) ∧ values user_world = (Ok vs, user_world) ∧
    keys (omit "name" user_world) = (Ok ks', omit "name" user_world) ∧
    values (omit "name" user_world) = (Ok vs', omit "name" user_world) ∧
    ks' = filter (fun k => k ≠ "name") ks ∧
    zip ks' vs' = filter (fun kv => kv.1 ≠ "name") (zip ks vs) ∧
    length ks' = length vs' ∧
    ("name" ∉ ks') ∧
    (is_Some (__dict__ (obj user_world) !! "name") → "name" ∈ ks) ∧
    Forall2 (fun k v => __dict__ (obj user_world) !! k = Some v) ks' vs'.
Proof.
  apply (omitting_an_attribute user_world "name").
  vm_compute. apply list_elem_of_further, list_elem_of_here.
Defined.

(** C5. [keys] and [values] never raise.  The names are the declared
    columns that have an attribute on the object, in declared order, and the
    values are those attributes, position by position.  A declared column
    without an attribute is not among the names; a name that is not a
    declared column is not among them either, whatever the instance
    dictionary holds for it, and assigning to an attribute of such a name
    (a name that is not reserved) changes neither result. *)
Theorem keys_values_select_declared_columns (w : world) :
  ∃ ks vs,
    keys w = (Ok ks, w) ∧ values w = (Ok vs, w) ∧
    ks `sublist_of` columns (obj w) ∧
    ks = filter (fun k => is_Some (__dict__ (obj w) !! k)) (columns (obj w)) ∧
    (∀ k, k ∈ ks ↔ k ∈ columns (obj w) ∧ is_Some (__dict__ (obj w) !! k)) ∧
    Forall2 (fun k v => __dict__ (obj w) !! k = Some v) ks vs ∧
    (∀ name : string, name ∉ columns (obj w) → name ∉ ks) ∧
    (∀ (name : attr) v, attr_name name ∉ columns (obj w) →
       keys (snd (setattr name v w)) = (Ok ks, snd (setattr name v w)) ∧
       values (snd (setattr name v w)) = (Ok vs, snd (setattr name v w))).
Proof.
  exists (present_columns (obj w)), (present_values (obj w)).
  split; [apply keys_run|]. split; [apply values_run|].
  split; [apply present_columns_sublist|]. split; [done|].
  split; [apply elem_of_present_columns|]. split; [apply present_aligned|].
  split.
  { intros name Hn. rewrite elem_of_present_columns. tauto. }
  intros name v Hn.
  rewrite keys_run, values_run. unfold setattr. cbn [snd obj].
  by rewrite present_columns_insert, present_values_insert.
Qed.

(** C9. [keys] and [values] leave the object, and the driver's record, as
    they found them; their results do not depend on anything but the
    declared columns and the instance dictionary; and a second call right
    after the first returns the same result. *)
Theorem keys_values_read_only (w : world) :
  snd (keys w) = w ∧ snd (values w) = w ∧
  (∀ table history,
     fst (keys (elsewhere table history w)) = fst (keys w) ∧
     fst (values (elsewhere table history w)) = fst (values w)) ∧
  (∃ ks, (a <- keys ;; b <- keys ;; ret (a, b)) w = (Ok (ks, ks), w)) ∧
  (∃ vs, (a <- values ;; b <- values ;; ret (a, b)) w = (Ok (vs, vs), w)).
Proof.
  split; [by rewrite keys_run|]. split; [by rewrite values_run|].
  split.
  { intros table history. by rewrite !keys_run, !values_run. }
  split.
  - exists (present_columns (obj w)). unfold bind. by rewrite !keys_run.
  - exists (present_values (obj w)). unfold bind. by rewrite !values_run.
Qed.

(** ** Lengths of the texts *)

Section Lengths.

Lemma length_append (a b : string) :
  String.length (a +:+ b) = String.length a + String.length b.
Proof.
  induction a as [|x a IH]; [done|].
  rewrite append_cons. cbn [String.length]. by rewrite IH.
Qed.

Lemma escape_char_length (q c : ascii) : 1 ≤ String.length (Builtins.escape_char q c).
Proof.
  unfold Builtins.escape_char, Builtins.hex_escape.
  repeat case_decide; try (cbn; lia).
  destruct (Builtins.printable c); cbn; lia.
Qed.

Lemma escape_length (q : ascii) (s : string) :
  String.length s ≤ String.length (Builtins.escape q s).
Proof.
  induction s as [|c s IH]; [done|].
  change (Builtins.escape q (String c s))
    with (Builtins.escape_char q c +:+ Builtins.escape q s).
  rewrite length_append. cbn [String.length].
  pose proof (escape_char_length q c). lia.
Qed.

Lemma repr_str_length (s : string) :
  String.length s + 2 ≤ String.length (Builtins.repr_str s).
Proof.
  unfold Builtins.repr_str. cbv zeta. rewrite append_cons.
  cbn [String.length]. rewrite length_append. cbn [String.length].
  pose proof (escape_length (Builtins.quote_for s) s). lia.
Qed.

Lemma join_length_mono (sep : string) (f : string → string) (ks : list string) :
  (∀ k, String.length k ≤ String.length (f k)) →
  String.length (Builtins.join sep ks) ≤ String.length (Builtins.join sep (f <$> ks)).
Proof.
  intros Hf. unfold Builtins.join.
  induction ks as [|k ks IH]; [done|].
  destruct ks as [|k' ks]; [apply Hf|].
  change (String.length (k +:+ sep +:+ String.concat sep (k' :: ks))
          ≤ String.length (f k +:+ sep +:+ String.concat sep (f <$> k' :: ks))).
  rewrite !length_append. pose proof (Hf k). lia.
Qed.

(** The text of a list of names is never the names joined by commas. *)
Lemma str_of_names_longer (ks : list string) :
  String.length (Builtins.join ", " ks) + 2
  ≤ String.length (Builtins.str (PList (PStr <$> ks))).
Proof.
  rewrite str_of_names, append_cons, append_empty.
  cbn [String.length]. rewrite length_append. cbn [String.length].
  assert (Hj := join_length_mono ", " Builtins.repr_str ks).
  assert (Hk : ∀ k, String.length k ≤ String.length (Builtins.repr_str k)).
  { intros k. pose proof (repr_str_length k). lia. }
  specialize (Hj Hk). lia.
Qed.

Lemma built_text_longer (o : pyobj) :
  String.length (intended_text o) + 2 ≤ String.length (built_text o).
Proof.
  unfold intended_text, built_text.
  rewrite !length_append. cbn [String.length].
  assert (Hj := join_length_mono ", " Builtins.repr_str (present_columns o)).
  assert (Hk : ∀ k, String.length k ≤ String.length (Builtins.repr_str k)).
  { intros k. pose proof (repr_str_length k). lia. }
  specialize (Hj Hk). lia.
Qed.

End Lengths.

(** ** The two versions of [keys] *)

(** C2. Both versions of [keys] select the declared columns that are set.
    The earlier one returns them joined into one text; the summary cell's
    returns the list itself, and the text an f-string makes of that list is
    never the joined text.  On the running example the two results are the
    list of [name] and [birthday] and the text [name, birthday]. *)
Theorem keys_returns_the_list (w : world) :
  (∃ ks : list string,
     keys w = (Ok ks, w) ∧
     Joined.keys w = (Ok (Builtins.join ", " ks), w) ∧
     ks = filter (fun k => is_Some (__dict__ (obj w) !! k)) (columns (obj w)) ∧
     Builtins.str (PList (PStr <$> ks)) ≠ Builtins.str (PStr (Builtins.join ", " ks))) ∧
  fst (keys user_world) = Ok ["name"; "birthday"] ∧
  fst (Joined.keys user_world) = Ok "name, birthday" ∧
  Builtins.str (PList [PStr "name"; PStr "birthday"]) = "['name', 'birthday']".
Proof.
  split; [|by vm_compute].
  exists (present_columns (obj w)).
  split; [apply keys_run|]. split; [apply joined_keys_run|]. split; [done|].
  intros Heq. apply (f_equal String.length) in Heq.
  pose proof (str_of_names_longer (present_columns (obj w))) as Hlen.
  cbn [Builtins.str] in Heq, Hlen. cbn [Builtins.str] in Hlen. lia.
Qed.

(** ** Saving *)

(** Rewrites a run of [save] into its outcome and final world. *)
Ltac run_save :=
  rewrite save_run; unfold after_commit, after_execute; cbn [obj calls].

Section Saving.

Context (conn : connection) (cur : cursor).
Implicit Types (w : world).

(** With the [keys] that joins, [save] sends the text the specification
    describes. *)
Lemma joined_save_run w :
  let sent := Execute (intended_text (obj w)) (present_values (obj w)) in
  Joined.save conn cur w =
    match execute_raises cur (calls w) (intended_text (obj w)) (present_values (obj w)) with
    | Some e => (Raise e, World (obj w) (calls w ++ [sent]))
    | None =>
        match commit_raises conn (calls w ++ [sent]) with
        | Some e => (Raise e, World (obj w) ((calls w ++ [sent]) ++ [Commit]))
        | None => (Ok PNone, World (obj w) ((calls w ++ [sent]) ++ [Commit]))
        end
    end.
Proof.
  cbv zeta. unfold Joined.save. unfold bind at 1. rewrite values_run.
  unfold bind at 1, get_table. unfold bind at 1. rewrite joined_keys_run.
  unfold bind at 1. rewrite values_run.
  unfold cursor_execute, conn_commit, bind, calls_so_far, record_call, raise, ret,
    Builtins.list_copy, Builtins.list_mul, intended_text.
  cbn [obj calls Builtins.str].
  destruct (execute_raises cur _ _ _); [done|].
  by destruct (commit_raises conn _).
Qed.

(** C6. [save] calls [execute] with the text [built_text] and the selected
    values as parameters, with one placeholder per value, and commits when
    [execute] returns.  In that text the column list is the text of a Python
    list, so it is never the text of the shape
    [INSERT INTO <table> (<col1>, <col2>, ...) VALUES (...)]; the running
    example shows both texts. *)
Theorem save_statement_shape w :
  (∃ rest,
     calls (snd (save conn cur w))
     = calls w ++ Execute (built_text (obj w)) (present_values (obj w)) :: rest ∧
     (execute_raises cur (calls w) (built_text (obj w)) (present_values (obj w)) = None
      ↔ rest = [Commit])) ∧
  values w = (Ok (present_values (obj w)), w) ∧
  built_text (obj w)
  = "INSERT INTO " +:+ __table__ (obj w) +:+ " ([" +:+
      Builtins.join ", " (Builtins.repr_str <$> present_columns (obj w)) +:+
      "]) VALUES (" +:+
      Builtins.join ", " (replicate (length (present_values (obj w))) "%s") +:+ ");" ∧
  built_text (obj w) ≠ intended_text (obj w) ∧
  built_text (obj user_world)
  = "INSERT INTO users (['name', 'birthday']) VALUES (%s, %s);" ∧
  intended_text (obj user_world)
  = "INSERT INTO users (name, birthday) VALUES (%s, %s);".
Proof.
  split.
  { run_save.
    destruct (execute_raises cur _ _ _) as [e|].
    - exists []. split; [done|]. split; discriminate.
    - exists [Commit]. split; [|done].
      destruct (commit_raises conn _); cbn [snd calls]; by rewrite <- app_assoc. }
  split; [apply values_run|]. split; [done|].
  split; [|by vm_compute].
  intros Heq. apply (f_equal String.length) in Heq.
  pose proof (built_text_longer (obj w)). lia.
Qed.

(** C7. [save] makes one [execute] call, with an INSERT text and the
    selected values.  If that call raises, [save] raises the same exception
    and nothing else is called.  Otherwise [save] calls [commit] and, if
    that returns, returns [None].  No other call is made on the cursor or the
    connection, and the object is left as it was. *)
Theorem save_executes_then_commits w :
  ∃ stmt params,
    String.prefix "INSERT INTO " stmt = true ∧
    values w = (Ok params, w) ∧
    save conn cur w =
      match execute_raises cur (calls w) stmt params with
      | Some e => (Raise e, World (obj w) (calls w ++ [Execute stmt params]))
      | None =>
          match commit_raises conn (calls w ++ [Execute stmt params]) with
          | Some e => (Raise e, World (obj w) (calls w ++ [Execute stmt params; Commit]))
          | None => (Ok PNone, World (obj w) (calls w ++ [Execute stmt params; Commit]))
          end
      end.
Proof.
  exists (built_text (obj w)), (present_values (obj w)).
  split; [apply prefix_append|]. split; [apply values_run|].
  run_save. by rewrite <- app_assoc.
Qed.

(** C8. Two calls of [save] on the same object make two [execute] calls
    with the same text and the same parameters; each is followed by at most
    a [commit], and the object is the same after both. *)
Theorem save_twice_executes_twice w :
  ∃ stmt params rest1 rest2,
    calls (snd (save conn cur w)) = calls w ++ Execute stmt params :: rest1 ∧
    calls (snd (save conn cur (snd (save conn cur w))))
    = calls (snd (save conn cur w)) ++ Execute stmt params :: rest2 ∧
    (rest1 = [] ∨ rest1 = [Commit]) ∧
    (rest2 = [] ∨ rest2 = [Commit]) ∧
    obj (snd (save conn cur w)) = obj w ∧
    obj (snd (save conn cur (snd (save conn cur w)))) = obj w.
Proof.
  assert (Hone : ∀ w0, ∃ rest,
    snd (save conn cur w0)
    = World (obj w0) (calls w0 ++ Execute (built_text (obj w0)) (present_values (obj w0)) :: rest)
    ∧ (rest = [] ∨ rest = [Commit])).
  { intros w0. run_save.
    destruct (execute_raises cur _ _ _) as [e|].
    - exists []. split; [done|]. by left.
    - exists [Commit]. split; [|by right].
      destruct (commit_raises conn _); cbn [snd]; by rewrite <- app_assoc. }
  destruct (Hone w) as (rest1 & H1 & Hr1).
  destruct (Hone (snd (save conn cur w))) as (rest2 & H2 & Hr2).
  exists (built_text (obj w)), (present_values (obj w)), rest1, rest2.
  rewrite H2. rewrite H1. cbn [obj calls]. done.
Qed.

(** C10. When no declared column is set on the object, [save] does not
    raise before it reaches the driver: it calls [execute] with no
    parameters and an empty placeholder list, and commits when [execute]
    returns.  The column list of the text it sends is [[]], the text of an
    empty Python list, not the empty text. *)
Theorem save_with_no_column_set w :
  Forall (fun c => __dict__ (obj w) !! c = None) (columns (obj w)) →
  let stmt := "INSERT INTO " +:+ __table__ (obj w) +:+ " ([]) VALUES ();" in
  stmt ≠ "INSERT INTO " +:+ __table__ (obj w) +:+ " () VALUES ();" ∧
  save conn cur w =
    match execute_raises cur (calls w) stmt [] with
    | Some e => (Raise e, World (obj w) (calls w ++ [Execute stmt []]))
    | None =>
        match commit_raises conn (calls w ++ [Execute stmt []]) with
        | Some e => (Raise e, World (obj w) (calls w ++ [Execute stmt []; Commit]))
        | None => (Ok PNone, World (obj w) (calls w ++ [Execute stmt []; Commit]))
        end
    end.
Proof.
  intros Hnone stmt.
  destruct (present_none_set _ Hnone) as [Hk Hv].
  assert (Hstmt : built_text (obj w) = stmt).
  { unfold built_text. by rewrite Hk, Hv. }
  split.
  { intros Heq. apply (f_equal String.length) in Heq.
    subst stmt. rewrite !length_append in Heq. cbn [String.length] in Heq. lia. }
  run_save. rewrite Hstmt, Hv. by rewrite <- app_assoc.
Qed.

End Saving.

(** C1. The running example, as the summary cell computes it: [keys]
    returns the list of the two names, not their display text; [values]
    returns the two values; and [save] sends a statement whose column list
    is the text of that list, brackets and quotes included.  The earlier
    cell's [keys] and [save] give the display text and the statement of the
    example. *)
Theorem user_example_as_computed :
  keys user_world = (Ok ["name"; "birthday"], user_world) ∧
  values user_world = (Ok [PStr "bob"; PStr "3/5/1997"], user_world) ∧
  save always_ok_conn always_ok_cursor user_world
  = (Ok PNone,
     World (obj user_world)
       [Execute "INSERT INTO users (['name', 'birthday']) VALUES (%s, %s);"
          [PStr "bob"; PStr "3/5/1997"];
        Commit]) ∧
  Joined.keys user_world = (Ok "name, birthday", user_world) ∧
  Joined.save always_ok_conn always_ok_cursor user_world
  = (Ok PNone,
     World (obj user_world)
       [Execute "INSERT INTO users (name, birthday) VALUES (%s, %s);"
          [PStr "bob"; PStr "3/5/1997"];
        Commit]).
Proof. repeat split; vm_compute; reflexivity. Qed.

(** A fresh [User()] with a driver that never raises. *)
Lemma save_with_no_column_set_fresh_user :
  save always_ok_conn always_ok_cursor (World User [])
  = (Ok PNone,
     World User [Execute "INSERT INTO users ([]) VALUES ();" []; Commit]).
Proof.
  assert (Hnone : Forall (fun c => __dict__ User !! c = None) (columns User)).
  { vm_compute. repeat constructor. }
  exact (proj2 (save_with_no_column_set always_ok_conn always_ok_cursor
                  (World User []) Hnone)).
Defined.

(** ** Further properties of the selection *)

Section MoreSelection.

Implicit Types (o : pyobj) (w : world) (d : gmap string pyval) (xs : list string).

Lemma filter_insert_others d c v xs :
  filter (fun k => k ≠ c) (filter (fun k => is_Some (<[c := v]> d !! k)) xs)
  = filter (fun k => k ≠ c) (filter (fun k => is_Some (d !! k)) xs).
Proof.
  induction xs as [|x xs IH]; [done|].
  destruct (decide (x = c)) as [->|Hne].
  - rewrite (filter_cons_True (fun k => is_Some (<[c := v]> d !! k)));
      [|rewrite lookup_insert_eq; eauto].
    rewrite filter_cons_False by naive_solver. rewrite IH.
    destruct (decide (is_Some (d !! c))).
    + rewrite (filter_cons_True (fun k => is_Some (d !! k))) by done.
      by rewrite filter_cons_False by naive_solver.
    + by rewrite (filter_cons_False (fun k => is_Some (d !! k))) by done.
  - destruct (decide (is_Some (d !! x))).
    + rewrite (filter_cons_True (fun k => is_Some (<[c := v]> d !! k)));
        [|by rewrite lookup_insert_ne].
      rewrite (filter_cons_True (fun k => is_Some (d !! k))) by done.
      rewrite !(filter_cons_True (fun k => k ≠ c)) by done. by rewrite IH.
    + rewrite (filter_cons_False (fun k => is_Some (<[c := v]> d !! k)));
        [|by rewrite lookup_insert_ne].
      by rewrite (filter_cons_False (fun k => is_Some (d !! k))) by done.
Qed.

Lemma filter_all_length {A} (P : A → Prop) `{!∀ x, Decision (P x)} (l : list A) :
  length (filter P l) = length l ↔ Forall P l.
Proof.
  induction l as [|x l IH]; [by split; [constructor|]|].
  destruct (decide (P x)) as [Hx|Hx].
  - rewrite filter_cons_True by done. cbn [length]. rewrite Forall_cons.
    split.
    + intros Hl. split; [done|]. apply IH. lia.
    + intros [_ Hl]. apply IH in Hl. lia.
  - rewrite filter_cons_False by done. cbn [length]. rewrite Forall_cons.
    pose proof (length_filter P l). split; [lia|tauto].
Qed.

Lemma occurrences_selected d k xs :
  length (filter (fun x => x = k) (filter (fun x => is_Some (d !! x)) xs))
  = if decide (is_Some (d !! k)) then length (filter (fun x => x = k) xs) else 0.
Proof.
  induction xs as [|x xs IH]; [by case_decide|].
  destruct (decide (x = k)) as [->|Hne].
  - rewrite (filter_cons_True (fun x => x = k) k xs) by done. cbn [length].
    destruct (decide (is_Some (d !! k))) as [Hk|Hk].
    + rewrite (filter_cons_True (fun x => is_Some (d !! x))) by done.
      rewrite filter_cons_True by done. cbn [length]. by rewrite IH.
    + by rewrite (filter_cons_False (fun x => is_Some (d !! x))) by done.
  - rewrite (filter_cons_False (fun x => x = k) x xs) by done.
    destruct (decide (is_Some (d !! x))).
    + rewrite (filter_cons_True (fun x => is_Some (d !! x))) by done.
      by rewrite filter_cons_False by done.
    + by rewrite (filter_cons_False (fun x => is_Some (d !! x))) by done.
Qed.

End MoreSelection.

(** After [obj.c = v] for a declared column [c] whose name is not reserved,
    [keys] lists [c]; wherever [keys] has [c], [values] has [v]; every other
    name keeps the value it had, and the other names listed are the ones
    listed before. *)
Theorem setting_a_declared_column (w : world) (c : attr) (v : pyval) :
  attr_name c ∈ columns (obj w) →
  ∃ ks0 ks vs,
    keys w = (Ok ks0, w) ∧
    fst (setattr c v w) = Ok tt ∧
    keys (snd (setattr c v w)) = (Ok ks, snd (setattr c v w)) ∧
    values (snd (setattr c v w)) = (Ok vs, snd (setattr c v w)) ∧
    attr_name c ∈ ks ∧
    (∀ i, ks !! i = Some (attr_name c) → vs !! i = Some v) ∧
    (∀ i k, ks !! i = Some k → k ≠ attr_name c →
       vs !! i = __dict__ (obj w) !! k) ∧
    filter (fun k => k ≠ attr_name c) ks = filter (fun k => k ≠ attr_name c) ks0.
Proof.
  intros Hc.
  set (w' := snd (setattr c v w)).
  exists (present_columns (obj w)), (present_columns (obj w')), (present_values (obj w')).
  split; [apply keys_run|]. split; [done|].
  split; [apply keys_run|]. split; [apply values_run|].
  assert (Hd : __dict__ (obj w') = <[attr_name c := v]> (__dict__ (obj w))) by done.
  assert (Hcols : columns (obj w') = columns (obj w)) by done.
  split.
  { apply elem_of_present_columns. rewrite Hcols, Hd, lookup_insert_eq. eauto. }
  split.
  { intros i Hi.
    destruct (Forall2_lookup_l _ _ _ _ _ (present_aligned (obj w')) Hi) as (v' & Hv & Hl).
    rewrite Hd, lookup_insert_eq in Hl. congruence. }
  split.
  { intros i k Hi Hne.
    destruct (Forall2_lookup_l _ _ _ _ _ (present_aligned (obj w')) Hi) as (v' & Hv & Hl).
    rewrite Hd, lookup_insert_ne in Hl by done. congruence. }
  unfold present_columns. rewrite Hcols, Hd. apply filter_insert_others.
Qed.

(** On the running example, [user.id = 7]. *)
Lemma setting_a_declared_column_user_id :
  ∃ ks0 ks vs,
    keys user_world = (Ok ks0, user_world) ∧
    fst (setattr id_attr (PInt 7) user_world) = Ok tt ∧
    keys (snd (setattr id_attr (PInt 7) user_world))
    = (Ok ks, snd (setattr id_attr (PInt 7) user_world)) ∧
    values (snd (setattr id_attr (PInt 7) user_world))
    = (Ok vs, snd (setattr id_attr (PInt 7) user_world)) ∧
    "id" ∈ ks ∧
    (∀ i, ks !! i = Some "id" → vs !! i = Some (PInt 7)) ∧
    (∀ i k, ks !! i = Some k → k ≠ "id" →
       vs !! i = __dict__ (obj user_world) !! k) ∧
    filter (fun k => k ≠ "id") ks = filter (fun k => k ≠ "id") ks0.
Proof.
  apply (setting_a_declared_column user_world id_attr (PInt 7)).
  vm_compute. apply list_elem_of_here.
Defined.

(** Assigning again to an attribute that is already set, under a name that
    is not reserved, changes neither what [keys] returns nor how many values
    [values] returns, whatever the new value is, [None] included. *)
Theorem assigning_again_keeps_keys (w : world) (c : attr) (v : pyval) :
  is_Some (__dict__ (obj w) !! attr_name c) →
  ∃ ks vs vs',
    keys w = (Ok ks, w) ∧ values w = (Ok vs, w) ∧
    keys (snd (setattr c v w)) = (Ok ks, snd (setattr c v w)) ∧
    values (snd (setattr c v w)) = (Ok vs', snd (setattr c v w)) ∧
    length vs' = length vs.
Proof.
  intros Hset.
  set (w' := snd (setattr c v w)).
  assert (Hks : present_columns (obj w') = present_columns (obj w)).
  { unfold present_columns. cbn [w' setattr snd obj columns __dict__].
    apply list_filter_iff. intros k.
    destruct (decide (k = attr_name c)) as [->|Hne].
    - rewrite lookup_insert_eq. split; eauto.
    - by rewrite lookup_insert_ne. }
  exists (present_columns (obj w)), (present_values (obj w)), (present_values (obj w')).
  split; [apply keys_run|]. split; [apply values_run|].
  split; [rewrite <- Hks; apply keys_run|]. split; [apply values_run|].
  by rewrite <- !present_lengths, Hks.
Qed.

(** On the running example, [user.name = None]. *)
Lemma assigning_again_keeps_keys_user_name :
  ∃ ks vs vs',
    keys user_world = (Ok ks, user_world) ∧ values user_world = (Ok vs, user_world) ∧
    keys (snd (setattr name_attr PNone user_world))
    = (Ok ks, snd (setattr name_attr PNone user_world)) ∧
    values (snd (setattr name_attr PNone user_world))
    = (Ok vs', snd (setattr name_attr PNone user_world)) ∧
    length vs' = length vs.
Proof.
  apply (assigning_again_keeps_keys user_world name_attr PNone).
  vm_compute. eexists. reflexivity.
Defined.

(** [keys] and [values] never return more items than there are declared
    columns, and return as many exactly when every declared column is set. *)
Theorem selection_is_no_longer_than_columns (w : world) :
  ∃ ks vs,
    keys w = (Ok ks, w) ∧ values w = (Ok vs, w) ∧
    length vs = length ks ∧
    length ks ≤ length (columns (obj w)) ∧
    (length ks = length (columns (obj w))
     ↔ Forall (fun c => is_Some (__dict__ (obj w) !! c)) (columns (obj w))).
Proof.
  exists (present_columns (obj w)), (present_values (obj w)).
  split; [apply keys_run|]. split; [apply values_run|].
  split; [by rewrite present_lengths|].
  split; [apply length_filter|].
  apply filter_all_length.
Qed.

(** A name declared several times is listed by [keys] as many times as it is
    declared when it is set, and not at all when it is not set. *)
Theorem repeated_columns_are_repeated (w : world) (k : string) :
  ∃ ks,
    keys w = (Ok ks, w) ∧
    length (filter (fun x => x = k) ks)
    = if decide (is_Some (__dict__ (obj w) !! k))
      then length (filter (fun x => x = k) (columns (obj w)))
      else 0.
Proof.
  exists (present_columns (obj w)). split; [apply keys_run|].
  apply occurrences_selected.
Qed.

(** ** Percent signs in the texts *)

Section Percent.

Lemma count_char_append (c : ascii) (a b : string) :
  count_char c (a +:+ b) = count_char c a + count_char c b.
Proof.
  induction a as [|x a IH]; [done|].
  rewrite append_cons. cbn [count_char]. rewrite IH. lia.
Qed.

Lemma count_char_join_none (c : ascii) (sep : string) (xs : list string) :
  count_char c sep = 0 →
  Forall (fun x => count_char c x = 0) xs →
  count_char c (Builtins.join sep xs) = 0.
Proof.
  intros Hsep. unfold Builtins.join.
  induction 1 as [|x xs Hx Hxs IH]; [done|].
  destruct xs as [|y xs]; [done|].
  change (count_char c (x +:+ sep +:+ String.concat sep (y :: xs)) = 0).
  rewrite !count_char_append. lia.
Qed.

Lemma count_percent_placeholders (n : nat) :
  count_char percent (Builtins.join ", " (replicate n "%s")) = n.
Proof.
  unfold Builtins.join.
  induction n as [|n IH]; [done|].
  destruct n as [|n]; [done|].
  change (count_char percent ("%s" +:+ ", " +:+ String.concat ", " (replicate (S n) "%s"))
          = S (S n)).
  rewrite !count_char_append, IH. done.
Qed.

(** Quoting a name adds no percent sign and drops none. *)
Lemma count_percent_escape_char (q c : ascii) :
  q = "'"%char ∨ q = Builtins.double_quote →
  count_char percent (Builtins.escape_char q c) = count_char percent (String c "").
Proof.
  intros [->| ->];
    destruct c as [[] [] [] [] [] [] [] []]; vm_compute; reflexivity.
Qed.

Lemma quote_for_cases (s : string) :
  Builtins.quote_for s = "'"%char ∨ Builtins.quote_for s = Builtins.double_quote.
Proof. unfold Builtins.quote_for. destruct (_ && _); auto. Qed.

Lemma count_percent_escape (q : ascii) (s : string) :
  q = "'"%char ∨ q = Builtins.double_quote →
  count_char percent (Builtins.escape q s) = count_char percent s.
Proof.
  intros Hq. induction s as [|c s IH]; [done|].
  change (Builtins.escape q (String c s))
    with (Builtins.escape_char q c +:+ Builtins.escape q s).
  rewrite count_char_append, IH, count_percent_escape_char by done.
  cbn [count_char]. lia.
Qed.

Lemma count_percent_repr_str (s : string) :
  count_char percent (Builtins.repr_str s) = count_char percent s.
Proof.
  unfold Builtins.repr_str. cbv zeta.
  destruct (quote_for_cases s) as [Hq|Hq]; rewrite Hq;
    rewrite append_cons; cbn [count_char];
    rewrite count_char_append, count_percent_escape by auto; done.
Qed.

End Percent.

(** ** The first [save] *)

Section MoreSaving.

Context (conn : connection) (cur : cursor).
Implicit Types (w : world).

(** With the [keys] that joins, [save] calls [execute] once, with the table
    name, the selected names separated by a comma and a space, one [%s] per
    selected name, and the selected values as parameters; it commits exactly
    when [execute] returns, returns [None] exactly when both calls return,
    and leaves the object as it was. *)
Theorem first_save_sends_the_joined_names w :
  ∃ ks vs rest,
    keys w = (Ok ks, w) ∧ values w = (Ok vs, w) ∧
    let stmt :=
      "INSERT INTO " +:+ __table__ (obj w) +:+ " (" +:+ Builtins.join ", " ks +:+
      ") VALUES (" +:+ Builtins.join ", " (replicate (length ks) "%s") +:+ ");" in
    calls (snd (Joined.save conn cur w)) = calls w ++ Execute stmt vs :: rest ∧
    obj (snd (Joined.save conn cur w)) = obj w ∧
    (execute_raises cur (calls w) stmt vs = None ↔ rest = [Commit]) ∧
    (fst (Joined.save conn cur w) = Ok PNone
     ↔ execute_raises cur (calls w) stmt vs = None
       ∧ commit_raises conn (calls w ++ [Execute stmt vs]) = None) ∧
    (rest = [] ∨ rest = [Commit]).
Proof.
  pose proof (joined_save_run conn cur w) as Hrun. cbv zeta in Hrun.
  unfold intended_text in Hrun. rewrite <- present_lengths in Hrun.
  exists (present_columns (obj w)), (present_values (obj w)).
  destruct (execute_raises cur _ _ _) as [e|] eqn:Hexec.
  - exists []. split; [apply keys_run|]. split; [apply values_run|].
    cbv zeta. rewrite Hrun, Hexec. cbn [fst snd obj calls].
    repeat split; try done; try (by left). by intros [? _].
  - exists [Commit]. split; [apply keys_run|]. split; [apply values_run|].
    cbv zeta. rewrite Hrun, Hexec.
    destruct (commit_raises conn _) as [e|] eqn:Hcommit;
      cbn [fst snd obj calls]; rewrite <- app_assoc;
      repeat split; try done; try (by right). by intros [_ ?].
Qed.

(** With the [keys] that joins and no declared column set, [keys] returns the
    empty text and [save] sends [INSERT INTO <table> () VALUES ();] with no
    parameter. *)
Theorem first_save_with_no_column_set w :
  Forall (fun c => __dict__ (obj w) !! c = None) (columns (obj w)) →
  let stmt := "INSERT INTO " +:+ __table__ (obj w) +:+ " () VALUES ();" in
  Joined.keys w = (Ok "", w) ∧
  Joined.save conn cur w =
    match execute_raises cur (calls w) stmt [] with
    | Some e => (Raise e, World (obj w) (calls w ++ [Execute stmt []]))
    | None =>
        match commit_raises conn (calls w ++ [Execute stmt []]) with
        | Some e => (Raise e, World (obj w) (calls w ++ [Execute stmt []; Commit]))
        | None => (Ok PNone, World (obj w) (calls w ++ [Execute stmt []; Commit]))
        end
    end.
Proof.
  intros Hnone stmt.
  destruct (present_none_set _ Hnone) as [Hk Hv].
  split; [by rewrite joined_keys_run, Hk|].
  pose proof (joined_save_run conn cur w) as Hrun. cbv zeta in Hrun.
  unfold intended_text in Hrun. rewrite Hk, Hv in Hrun.
  rewrite Hrun. by rewrite <- app_assoc.
Qed.

Lemma no_percent_in_selection w :
  Forall (fun c => count_char percent c = 0) (columns (obj w)) →
  Forall (fun c => count_char percent c = 0) (present_columns (obj w)).
Proof.
  rewrite !Forall_forall. intros Hall k Hk.
  apply elem_of_present_columns in Hk as [Hk _]. by apply Hall.
Qed.


(** The same holds of the summary cell's [save]: quoting the names adds no
    percent sign. *)
Theorem save_percent_signs w :
  count_char percent (__table__ (obj w)) = 0 →
  Forall (fun c => count_char percent c = 0) (columns (obj w)) →
  ∃ stmt params rest,
    calls (snd (save conn cur w)) = calls w ++ Execute stmt params :: rest ∧
    count_char percent stmt = length params.
Proof.
  intros Htable Hcols.
  assert (Hcount : count_char percent (built_text (obj w))
                   = length (present_values (obj w))).
  { unfold built_text. rewrite !count_char_append, Htable.
    rewrite count_char_join_none; [|done|].
    - rewrite count_percent_placeholders. done.
    - apply Forall_fmap. eapply Forall_impl; [by apply no_percent_in_selection|].
      intros k Hk. cbn. by rewrite count_percent_repr_str. }
  exists (built_text (obj w)), (present_values (obj w)).
  run_save.
  destruct (execute_raises cur _ _ _) as [e|].
  - by exists [].
  - exists [Commit]. split; [|done].
    destruct (commit_raises conn _); cbn [snd calls]; by rewrite <- app_assoc.
Qed.

End MoreSaving.

(** The fresh [User()] with a driver that never raises. *)
Lemma first_save_with_no_column_set_fresh_user :
  Joined.keys (World User []) = (Ok "", World User []) ∧
  Joined.save always_ok_conn always_ok_cursor (World User [])
  = (Ok PNone,
     World User [Execute "INSERT INTO users () VALUES ();" []; Commit]).
Proof.
  assert (Hnone : Forall (fun c => __dict__ User !! c = None) (columns User)).
  { vm_compute. repeat constructor. }
  exact (first_save_with_no_column_set always_ok_conn always_ok_cursor
           (World User []) Hnone).
Defined.


Lemma save_percent_signs_user :
  ∃ stmt params rest,
    calls (snd (save always_ok_conn always_ok_cursor user_world))
    = calls user_world ++ Execute stmt params :: rest ∧
    count_char percent stmt = length params.
Proof.
  apply (save_percent_signs always_ok_conn always_ok_cursor user_world).
  - vm_compute. reflexivity.
  - vm_compute. repeat constructor.
Defined.
